(** * scripts/extract-oci-description.py

    A shallow embedding of the label extractor and the properties of its
    command-line contract.

    The script reads one file, runs one [re.search] over its text and
    prints either the captured description or an error.  The embedding has
    three layers:

    - Python text ([str] as a list of code points) and the fragment of the
      [re] engine the script's pattern needs: literals, a negated literal,
      the [\s] category, greedy repeats of a one-character item, and a
      capturing group, matched by backtracking;
    - the process environment ([sys.argv], [pathlib.Path], the two output
      streams and what standard output can encode, exceptions) as a small
      state-and-exception monad;
    - [main] and the [__main__] block, written in that monad. *)

From Stdlib Require Import String Ascii DecimalString HexadecimalString.
From Stdlib Require Import List NArith ZArith Bool Arith Lia.
Import ListNotations.

Set Implicit Arguments.

(** ** Python text *)

(** A Python [str] is a sequence of Unicode code points. *)
Definition char := N.
Definition str := list char.

Definition ord (a : ascii) : char := N_of_ascii a.

(** [py "..."] is the [str] of an ASCII literal of the source. *)
Definition py (s : string) : str := map ord (list_ascii_of_string s).

(** The double quote, code point 34, and the line feed, code point 10. *)
Definition dquote : char := 34%N.
Definition newline : char := 10%N.

Module unicode.

(** [Py_UNICODE_ISSPACE]: the characters [str.isspace] accepts, which is
    what [\s] means in a [str] pattern compiled without [re.ASCII]. *)
Definition Py_UNICODE_ISSPACE (c : char) : bool :=
  ((9 <=? c) && (c <=? 13) || (28 <=? c) && (c <=? 32)
   || (c =? 133) || (c =? 160) || (c =? 5760)
   || (8192 <=? c) && (c <=? 8202)
   || (c =? 8232) || (c =? 8233) || (c =? 8239) || (c =? 8287)
   || (c =? 12288))%N.

End unicode.

(** ** The [re] engine, for the constructs of the script's pattern *)

Module re.

(** One-character items of a parsed pattern. *)
Inductive item :=
| LITERAL (c : char)
| NOT_LITERAL (c : char)
| CATEGORY_SPACE.

Definition item_match (a : item) (c : char) : bool :=
  match a with
  | LITERAL x => (c =? x)%N
  | NOT_LITERAL x => negb (c =? x)%N
  | CATEGORY_SPACE => unicode.Py_UNICODE_ISSPACE c
  end.

(** A parsed pattern is a sequence of nodes.  [MAX_REPEAT min a] is the
    greedy repeat of the item [a] at least [min] times, with no upper
    bound: [a*] is [MAX_REPEAT 0 a] and [a+] is [MAX_REPEAT 1 a]. *)
#[warnings="-register-all"]
Inductive node :=
| One (a : item)
| MAX_REPEAT (min : nat) (a : item)
| SUBPATTERN (group : nat) (body : list node).

Definition pattern := list node.

(** Captured groups, most recent first. *)
Definition groups := list (nat * str).

Fixpoint lookup (i : nat) (g : groups) : option str :=
  match g with
  | [] => None
  | (j, v) :: g' => if Nat.eqb i j then Some v else lookup i g'
  end.

Section Matcher.
Variable R : Type.

(** Greedy repeat with backtracking: take the item as long as it
    matches, then try the continuation at the longest run first and at
    each shorter run after it, never below [min] repetitions. *)
Fixpoint max_repeat (a : item) (min : nat) (s : str)
         (k : str -> option R) {struct s} : option R :=
  match s with
  | c :: s' =>
      if item_match a c then
        match max_repeat a (Nat.pred min) s' k with
        | Some r => Some r
        | None => match min with O => k s | S _ => None end
        end
      else match min with O => k s | S _ => None end
  | [] => match min with O => k s | S _ => None end
  end.

Fixpoint match_node (n : node) (s : str) (g : groups)
         (k : str -> groups -> option R) {struct n} : option R :=
  match n with
  | One a =>
      match s with
      | c :: s' => if item_match a c then k s' g else None
      | [] => None
      end
  | MAX_REPEAT min a => max_repeat a min s (fun s' => k s' g)
  | SUBPATTERN i body =>
      (fix go (ns : list node) (s1 : str) (g1 : groups)
           (k1 : str -> groups -> option R) {struct ns} : option R :=
         match ns with
         | [] => k1 s1 g1
         | n' :: ns' => match_node n' s1 g1 (fun s2 g2 => go ns' s2 g2 k1)
         end)
        body s g
        (fun s' g' =>
           k s' ((i, firstn (length s - length s') s) :: g'))
  end.

Fixpoint match_seq (ns : pattern) (s : str) (g : groups)
         (k : str -> groups -> option R) {struct ns} : option R :=
  match ns with
  | [] => k s g
  | n :: ns' => match_node n s g (fun s2 g2 => match_seq ns' s2 g2 k)
  end.

End Matcher.

(** A match object: where the match starts and ends in the searched
    text, and its groups. *)
Record Match := { m_start : nat; m_end : nat; m_groups : groups }.

(** [m.group(i)]: [None] when group [i] took no part in the match. *)
Definition group (m : Match) (i : nat) : option str := lookup i (m_groups m).

(** [pattern.match] at the head of [s]: the text left after the match and
    the groups. *)
Definition match_here (p : pattern) (s : str) : option (str * groups) :=
  match_seq p s [] (fun s' g => Some (s', g)).

(** [Pattern.search]: the match at the leftmost position of the text where
    the pattern matches; [i] counts the characters already passed. *)
Fixpoint search_from (p : pattern) (i : nat) (s : str) : option Match :=
  match match_here p s with
  | Some (s', g) =>
      Some {| m_start := i; m_end := i + (length s - length s'); m_groups := g |}
  | None =>
      match s with
      | [] => None
      | _ :: s' => search_from p (S i) s'
      end
  end.

Definition pattern_search (p : pattern) (s : str) : option Match := search_from p 0 s.

(** Reading a pattern's source, for the syntax the script's pattern is
    written in: a backslash before [s] is the whitespace category and
    before a character that is not an ASCII letter or digit makes that
    character a literal; [[^c]] is every character but [c]; the round
    brackets open and close a numbered group; [*] and [+] repeat the
    one-character item before them.  Anything else the fragment has no
    node for (an unescaped dot, the other escapes and special characters,
    sets of several characters, nested groups) makes the reading fail. *)
Definition is_ascii_alnum (c : char) : bool :=
  ((48 <=? c) && (c <=? 57) || (65 <=? c) && (c <=? 90)
   || (97 <=? c) && (c <=? 122))%N.

Definition escape (c : char) : option item :=
  if (c =? 115)%N then Some CATEGORY_SPACE
  else if is_ascii_alnum c then None
  else Some (LITERAL c).

Inductive token :=
| TItem (a : item)
| TStar
| TPlus
| TOpen
| TClose.

Definition push (t : option token) (ts : option (list token)) : option (list token) :=
  match t, ts with
  | Some t', Some ts' => Some (t' :: ts')
  | _, _ => None
  end.

Fixpoint tokenize (src : str) : option (list token) :=
  match src with
  | [] => Some []
  | 92%N :: c :: r => push (option_map TItem (escape c)) (tokenize r)
  | 92%N :: [] => None
  | 91%N :: 94%N :: c :: 93%N :: r => option_map (cons (TItem (NOT_LITERAL c))) (tokenize r)
  | 91%N :: _ => None
  | 46%N :: _ | 63%N :: _ | 123%N :: _ | 124%N :: _ | 94%N :: _ | 36%N :: _ => None
  | 40%N :: r => option_map (cons TOpen) (tokenize r)
  | 41%N :: r => option_map (cons TClose) (tokenize r)
  | 42%N :: r => option_map (cons TStar) (tokenize r)
  | 43%N :: r => option_map (cons TPlus) (tokenize r)
  | c :: r => option_map (cons (TItem (LITERAL c))) (tokenize r)
  end.

(** [outer] holds, in reverse, the nodes read before the group that is
    open, if one is; [cur] holds, in reverse, the nodes of the sequence
    being read; [n] is the number the next group gets. *)
Fixpoint parse (ts : list token) (n : nat) (outer : option (list node))
         (cur : list node) {struct ts} : option pattern :=
  match ts with
  | [] => match outer with None => Some (rev cur) | Some _ => None end
  | TItem a :: TStar :: r => parse r n outer (MAX_REPEAT 0 a :: cur)
  | TItem a :: TPlus :: r => parse r n outer (MAX_REPEAT 1 a :: cur)
  | TItem a :: r => parse r n outer (One a :: cur)
  | TOpen :: r =>
      match outer with
      | None => parse r (S n) (Some cur) []
      | Some _ => None
      end
  | TClose :: r =>
      match outer with
      | Some before => parse r n None (SUBPATTERN (Nat.pred n) (rev cur) :: before)
      | None => None
      end
  | TStar :: _ | TPlus :: _ => None
  end.

Definition compile (src : str) : option pattern :=
  match tokenize src with
  | Some ts => parse ts 1 None []
  | None => None
  end.

(** [re.search(src, s)]: compile, then search.  The outer [None] is a
    source that does not compile. *)
Definition search (src s : str) : option (option Match) :=
  option_map (fun p => pattern_search p s) (compile src).

End re.

Import re.

(** The pattern of the script.  The source writes it as the raw string
      org\.opencontainers\.image\.description\s*=\s*Q([^Q]+)Q
    where Q stands here for the double-quote character: the key with its
    dots escaped (so each is the literal dot), [\s*], [=], [\s*], a
    double quote, group 1 holding one or more characters other than a
    double quote, and a closing double quote. *)
Definition label_pattern_source : str :=
  py "org\.opencontainers\.image\.description\s*=\s*"
  ++ [dquote] ++ py "([^" ++ [dquote] ++ py "]+)" ++ [dquote].

(** The label's key. *)
Definition key : str := py "org.opencontainers.image.description".

(** The same pattern as [re] parses it ([label_pattern_compiled] below
    checks it against the source string). *)
Definition label_pattern : pattern :=
  map (fun c => One (LITERAL c)) key
  ++ [ MAX_REPEAT 0 CATEGORY_SPACE;
       One (LITERAL (ord "="));
       MAX_REPEAT 0 CATEGORY_SPACE;
       One (LITERAL dquote);
       SUBPATTERN 1 [ MAX_REPEAT 1 (NOT_LITERAL dquote) ];
       One (LITERAL dquote) ].

(** ** The process environment *)

(** The two text streams the script writes to, by the text that was
    written to each. *)
Record Streams := { stdout : str; stderr : str }.

Inductive stream := sys_stdout | sys_stderr.

(** The exception classes of the calls the script makes.  [read_text]
    raises one of the [OSError] family for a path that cannot be opened or
    read, and [UnicodeDecodeError] (a [ValueError]) for bytes that are not
    text in the expected encoding; [print] raises [UnicodeEncodeError]
    (a [ValueError] too) for text the stream cannot encode; [re.error] is
    for a pattern that does not compile. *)
Inductive exc_class :=
| OSError
| FileNotFoundError
| PermissionError
| IsADirectoryError
| UnicodeDecodeError
| UnicodeEncodeError
| re_error.

(** [issubclass(c, OSError)]. *)
Definition issubclass_OSError (c : exc_class) : bool :=
  match c with
  | OSError | FileNotFoundError | PermissionError | IsADirectoryError => true
  | UnicodeDecodeError | UnicodeEncodeError | re_error => false
  end.

(** An exception object: its class and what [str(exc)] gives. *)
Record exception := { exc_type : exc_class; exc_str : str }.

(** A [pathlib.Path] built from a string.  How it prints and what reading
    it gives are the library's and the file system's, so they are part of
    the environment. *)
Inductive Path := mkPath (arg : str).

Record Env := {
  sys_argv : list str;
  Path_str : Path -> str;
  Path_read_text : Path -> str + exception
}.

(** [sys.stdout], as far as the script can tell: a text stream whose
    codec works with the [strict] error handler.  [encodes x] says whether
    the codec can encode the text [x]; when it cannot, writing [x] raises
    [UnicodeEncodeError], with [encode_reason x] for its text, and nothing
    of [x] is written.  [sys.stderr] works with the [backslashreplace]
    handler, which encodes every text, so it has no such record. *)
Record Stdout := {
  encodes : str -> bool;
  encode_reason : str -> str
}.

(** Computations that write to the streams and either return a value or
    raise. *)
Definition IO (A : Type) : Type := Streams -> (A + exception) * Streams.

Definition ret {A} (a : A) : IO A := fun io => (inl a, io).

Definition bind {A B} (m : IO A) (f : A -> IO B) : IO B :=
  fun io =>
    match m io with
    | (inl a, io') => f a io'
    | (inr exc, io') => (inr exc, io')
    end.

Notation "x <- m ;; k" := (bind m (fun x => k))
  (at level 61, m at next level, right associativity).
Notation "m ;; k" := (bind m (fun _ => k))
  (at level 61, right associativity).

(** [print(x, file=f)]: the text, then a line feed, written to [f].  On
    standard output the write of [x] raises when the stream cannot encode
    it, before anything is written; the line feed that follows is a
    character every codec of the standard library encodes. *)
Definition print (out : Stdout) (x : str) (f : stream) : IO unit :=
  fun io =>
    match f with
    | sys_stdout =>
        if encodes out x
        then (inl tt, {| stdout := stdout io ++ x ++ [newline]; stderr := stderr io |})
        else (inr {| exc_type := UnicodeEncodeError; exc_str := encode_reason out x |}, io)
    | sys_stderr => (inl tt, {| stdout := stdout io; stderr := stderr io ++ x ++ [newline] |})
    end.

(** [try: v = body / except OSError as exc: ...]: an exception of the
    [OSError] family is handed to the handler, any other goes on
    propagating.  The result is [inl v] when the body returned [v] and
    [inr exc] when the handler is to run. *)
Definition try_except_OSError {A} (body : IO A) : IO (A + exception) :=
  fun io =>
    match body io with
    | (inl a, io') => (inl (inl a), io')
    | (inr exc, io') =>
        if issubclass_OSError (exc_type exc) then (inl (inr exc), io')
        else (inr exc, io')
    end.

(** [p.read_text()]: the whole file as text, or the exception. *)
Definition read_text (e : Env) (p : Path) : IO str :=
  fun io => (Path_read_text e p, io).

(** [re.search(src, s)] as a computation: a match object or [None]. *)
Definition re_search (src s : str) : IO (option Match) :=
  fun io =>
    match re.search src s with
    | Some m => (inl m, io)
    | None => (inr {| exc_type := re_error; exc_str := py "bad pattern" |}, io)
    end.

(** [str(x)] for the optional value [m.group(1)]. *)
Definition str_of_group (v : option str) : str :=
  match v with
  | Some x => x
  | None => py "None"
  end.

(** ** The script *)

(** [pathlib.Path(sys.argv[1]) if len(sys.argv) > 1 else pathlib.Path("Dockerfile")] *)
Definition dockerfile_path (argv : list str) : Path :=
  if 1 <? length argv then mkPath (nth 1 argv []) else mkPath (py "Dockerfile").

Definition missing_label_message : str :=
  py "Missing org.opencontainers.image.description label in Dockerfile".

Definition read_failure_message (e : Env) (p : Path) (exc : exception) : str :=
  py "Failed to read Dockerfile at " ++ Path_str e p ++ py ": " ++ exc_str exc.

Definition main (out : Stdout) (e : Env) : IO Z :=
  let dockerfile_path := dockerfile_path (sys_argv e) in
  r <- try_except_OSError (read_text e dockerfile_path) ;;
  match r with
  | inr exc =>
      print out (read_failure_message e dockerfile_path exc) sys_stderr ;;
      ret 2%Z
  | inl dockerfile =>
      m <- re_search label_pattern_source dockerfile ;;
      match m with
      | None =>
          print out missing_label_message sys_stderr ;;
          ret 3%Z
      | Some m =>
          print out (str_of_group (group m 1)) sys_stdout ;;
          ret 0%Z
      end
  end.

(** How the process ends: [raise SystemExit(main())] with the integer
    [main] returned, or an exception nothing caught. *)
Inductive Termination :=
| SystemExit (code : Z)
| Uncaught (exc : exception).

(** The exit status the caller sees.  An uncaught exception makes the
    interpreter print a traceback and exit with status 1; the traceback is
    the interpreter's own text and is not part of [Streams]. *)
Definition exit_status (t : Termination) : Z :=
  match t with
  | SystemExit code => code
  | Uncaught _ => 1%Z
  end.

Record Run := { termination : Termination; output : Streams }.

(** The [__main__] block, from empty streams, in a process whose standard
    output is [out]. *)
Definition script (out : Stdout) (e : Env) : Run :=
  match main out e {| stdout := []; stderr := [] |} with
  | (inl code, io) => {| termination := SystemExit code; output := io |}
  | (inr exc, io) => {| termination := Uncaught exc; output := io |}
  end.

(** ** What the specification calls an occurrence of the label *)

Definition isspace (c : char) : bool := unicode.Py_UNICODE_ISSPACE c.

(** A run of whitespace, as [\s*] takes it. *)
Definition whitespace (ws : str) : Prop := Forall (fun c => isspace c = true) ws.

(** The key, optional whitespace, [=], optional whitespace and the value
    [X] between double quotes. *)
Definition label_text (ws1 ws2 X : str) : str :=
  key ++ ws1 ++ py "=" ++ ws2 ++ [dquote] ++ X ++ [dquote].

(** The text contains the label with the quoted value [X], which has no
    double quote in it, starting at offset [i]. *)
Definition contains_label_at (text : str) (i : nat) (X : str) : Prop :=
  exists pre ws1 ws2 post,
    text = pre ++ label_text ws1 ws2 X ++ post /\ length pre = i /\
    whitespace ws1 /\ whitespace ws2 /\ ~ In dquote X.

(** An occurrence of the label pattern at offset [i] with captured value
    [X]: the pattern's group takes one character or more. *)
Definition occurs_at (text : str) (i : nat) (X : str) : Prop :=
  contains_label_at text i X /\ X <> [].

(** No occurrence of the pattern begins before offset [i]. *)
Definition leftmost (text : str) (i : nat) : Prop :=
  forall j Y, j < i -> ~ occurs_at text j Y.

(** ** Lists of characters *)

Fixpoint strip_prefix (p s : str) : option str :=
  match p, s with
  | [], _ => Some s
  | a :: p', c :: s' => if (c =? a)%N then strip_prefix p' s' else None
  | _ :: _, [] => None
  end.

Fixpoint take_while (f : char -> bool) (s : str) : str :=
  match s with
  | c :: s' => if f c then c :: take_while f s' else []
  | [] => []
  end.

Fixpoint drop_while (f : char -> bool) (s : str) : str :=
  match s with
  | c :: s' => if f c then drop_while f s' else s
  | [] => []
  end.

Definition not_dquote (c : char) : bool := negb (c =? dquote)%N.

(** The one way the pattern can match at the head of a text, step by
    step: the key, the whitespace run, [=], the whitespace run, the
    opening quote, the run of non-quote characters (not empty) and the
    closing quote.  It is not part of the script: [match_here_scan] proves
    that the backtracking matcher computes the same thing on the script's
    pattern, and the proofs go through it. *)
Definition scan_label (s : str) : option (str * groups) :=
  match strip_prefix key s with
  | None => None
  | Some s1 =>
      match drop_while isspace s1 with
      | [] => None
      | c :: s2 =>
          if (c =? ord "=")%N then
            match drop_while isspace s2 with
            | [] => None
            | q :: s3 =>
                if (q =? dquote)%N then
                  match take_while not_dquote s3, drop_while not_dquote s3 with
                  | (_ :: _) as X, _ :: s4 => Some (s4, [(1, X)])
                  | _, _ => None
                  end
                else None
            end
          else None
      end
  end.

(** ** Outcomes and concrete environments *)

Definition exited (code : Z) (out err : str) : Run :=
  {| termination := SystemExit code;
     output := {| stdout := out; stderr := err |} |}.

(** A run that ends on an exception nothing caught, having written
    nothing. *)
Definition uncaught (exc : exception) : Run :=
  {| termination := Uncaught exc;
     output := {| stdout := []; stderr := [] |} |}.

(** The exception of a write to standard output that cannot encode [x]. *)
Definition encode_error (out : Stdout) (x : str) : exception :=
  {| exc_type := UnicodeEncodeError; exc_str := encode_reason out x |}.

(** How a run that gets to [print(x)] with nothing written before ends:
    [x] and a line feed on standard output and status 0 when the stream
    encodes [x]; otherwise on the encoding error, uncaught, with nothing
    written. *)
Definition printed (out : Stdout) (x : str) : Run :=
  if encodes out x then exited 0 (x ++ [newline]) []
  else uncaught (encode_error out x).

Fixpoint str_eqb (a b : str) : bool :=
  match a, b with
  | [], [] => true
  | x :: a', y :: b' => (x =? y)%N && str_eqb a' b'
  | _, _ => false
  end.

Definition raw (p : Path) : str := match p with mkPath a => a end.

(** A file system holding one file, or one path whose reading fails;
    every other path is missing.  Paths print as they were given. *)
Definition one_file (args : list str) (name : str) (contents : str + exception) : Env :=
  {| sys_argv := py "scripts/extract-oci-description.py" :: args;
     Path_str := raw;
     Path_read_text := fun p =>
       if str_eqb (raw p) name then contents
       else inr {| exc_type := FileNotFoundError;
                   exc_str := py "[Errno 2] No such file or directory" |} |}.

(** Standard outputs.  A codec that encodes character by character: the
    text is encoded when every character is; the error names the first
    run of characters that are not, as the codecs of the standard library
    do. *)
Definition decimal (n : nat) : str :=
  py (DecimalString.NilZero.string_of_uint (Nat.to_uint n)).

Definition hex (width : nat) (c : char) : str :=
  let digits := py (HexadecimalString.NilZero.string_of_uint (N.to_hex_uint c)) in
  repeat (ord "0") (width - length digits) ++ digits.

Definition escape_char (c : char) : str :=
  if (c <=? 255)%N then py "\x" ++ hex 2 c
  else if (c <=? 65535)%N then py "\u" ++ hex 4 c
  else py "\U" ++ hex 8 c.

Definition codec_stdout (name : string) (ok : char -> bool) (reason : string) : Stdout :=
  {| encodes := forallb ok;
     encode_reason := fun x =>
       let start := length (take_while ok x) in
       let bad := take_while (fun c => negb (ok c)) (drop_while ok x) in
       match bad with
       | [c] =>
           py "'" ++ py name ++ py "' codec can't encode character '"
           ++ escape_char c ++ py "' in position " ++ decimal start
           ++ py ": " ++ py reason
       | _ =>
           py "'" ++ py name ++ py "' codec can't encode characters in position "
           ++ decimal start ++ py "-" ++ decimal (start + length bad - 1)
           ++ py ": " ++ py reason
       end |}.

(** UTF-8 encodes every character but the surrogates. *)
Definition utf8_stdout : Stdout :=
  codec_stdout "utf-8" (fun c => negb ((55296 <=? c) && (c <=? 57343))%N)
               "surrogates not allowed".

Definition ascii_stdout : Stdout :=
  codec_stdout "ascii" (fun c => (c <? 128)%N) "ordinal not in range(128)".

(** Checking [leftmost] by running the matcher at each earlier offset. *)
Definition no_match_below (text : str) (i : nat) : bool :=
  forallb (fun j => match match_here label_pattern (skipn j text) with
                    | None => true
                    | Some _ => false
                    end) (seq 0 i).

(** Checking that the pattern matches nowhere but, possibly, at offset
    [i]. *)
Definition no_match_except (text : str) (i : nat) : bool :=
  forallb (fun j => Nat.eqb j i ||
                    match match_here label_pattern (skipn j text) with
                    | None => true
                    | Some _ => false
                    end) (seq 0 (S (length text))).

(** The number of double quotes in a text. *)
Definition quotes (s : str) : nat := count_occ N.eq_dec s dquote.

(** [text] has [a] somewhere in it. *)
Definition includes (a text : str) : Prop := exists l r, text = l ++ a ++ r.

(** The path the script reads in environment [e], and what reading it
    gives. *)
Definition read_result (e : Env) : str + exception :=
  Path_read_text e (dockerfile_path (sys_argv e)).

Definition quoted (X : str) : str := [dquote] ++ X ++ [dquote].

(** Sample Dockerfiles. *)
Definition sample_dockerfile : str :=
  py "FROM alpine" ++ [newline]
  ++ py "LABEL org.opencontainers.image.description=" ++ quoted (py "A sample image")
  ++ [newline].

Definition no_label_dockerfile : str :=
  py "FROM alpine" ++ [newline] ++ py "RUN true" ++ [newline].

Definition empty_value_dockerfile : str :=
  py "LABEL org.opencontainers.image.description = " ++ quoted [] ++ [newline].

Definition two_labels_dockerfile : str :=
  py "LABEL org.opencontainers.image.description=" ++ quoted (py "first") ++ [newline]
  ++ py "LABEL org.opencontainers.image.description=" ++ quoted (py "second") ++ [newline].

(** The first line of [two_labels_dockerfile] followed by something else. *)
Definition sample_two_then_other : str :=
  firstn 51 two_labels_dockerfile ++ py "LABEL other=1" ++ [newline].

Definition multiline_dockerfile : str :=
  py "LABEL org.opencontainers.image.description=" 
  ++ quoted (py "first line" ++ [newline] ++ py "second line") ++ [newline].



Definition no_such_file : exception :=
  {| exc_type := FileNotFoundError;
     exc_str := py "[Errno 2] No such file or directory: 'Dockerfile'" |}.

Definition not_utf8 : exception :=
  {| exc_type := UnicodeDecodeError;
     exc_str := py "'utf-8' codec can't decode byte 0xff in position 0: invalid start byte" |}.

(** ** Malformed labels and further sample files *)

(** The first character of [s] satisfies [f]; false on the empty text. *)
Definition head_is (f : char -> bool) (s : str) : bool :=
  match s with
  | c :: _ => f c
  | [] => false
  end.

Definition is_equals (c : char) : bool := (c =? ord "=")%N.
Definition is_dquote (c : char) : bool := (c =? dquote)%N.

Definition backslash : char := 92%N.

(** [a] occurs in [text] at some offset, by trying each. *)
Definition has_sub (a text : str) : bool :=
  existsb (fun j => match strip_prefix a (skipn j text) with
                    | Some _ => true
                    | None => false
                    end) (seq 0 (S (length text))).

(** A value with a letter outside ASCII, e with an acute accent. *)
Definition accent_dockerfile : str :=
  py "LABEL org.opencontainers.image.description="
  ++ quoted (py "caf" ++ [233%N]) ++ [newline].

(** The key in another case. *)
Definition other_case_dockerfile : str :=
  py "LABEL Org.OpenContainers.Image.Description=" ++ quoted (py "v") ++ [newline].

(** The older form of the instruction, without [=]. *)
Definition no_equals_dockerfile : str :=
  py "LABEL org.opencontainers.image.description " ++ quoted (py "v") ++ [newline].

(** A value between single quotes. *)
Definition single_quoted_dockerfile : str :=
  py "LABEL org.opencontainers.image.description='v'" ++ [newline].

(** A quote that is opened and never closed. *)
Definition unterminated_dockerfile : str :=
  py "LABEL org.opencontainers.image.description=" ++ [dquote]
  ++ py "never closed" ++ [newline] ++ py "RUN true" ++ [newline].

(** A value with a backslash before a double quote inside it. *)
Definition escaped_quote_dockerfile : str :=
  py "LABEL org.opencontainers.image.description=" ++ [dquote]
  ++ py "say " ++ [backslash; dquote] ++ py "hi" ++ [backslash; dquote; dquote; newline].

(** A file system holding two files, each with its label. *)
Definition two_files (args : list str) : Env :=
  {| sys_argv := py "scripts/extract-oci-description.py" :: args;
     Path_str := raw;
     Path_read_text := fun p =>
       if str_eqb (raw p) (py "Dockerfile") then inl sample_dockerfile
       else if str_eqb (raw p) (py "a/Dockerfile") then inl two_labels_dockerfile
       else inr {| exc_type := FileNotFoundError;
                   exc_str := py "[Errno 2] No such file or directory: '"
                              ++ raw p ++ py "'" |} |}.

(** ** Tactics for concrete texts *)

(** [~ In dquote X] and [whitespace ws] on closed texts. *)
Ltac no_quote := let H := fresh in intros H; cbv in H; intuition discriminate.
Ltac spaces := repeat (constructor; try reflexivity).

(** [contains_label_at] once the four pieces around the value are given. *)
Ltac label_here :=
  repeat match goal with |- _ /\ _ => split end;
  [ vm_compute; reflexivity | reflexivity | spaces | spaces | no_quote ].

(** * Properties *)

(** ** Facts about the list functions *)

Lemma strip_prefix_app p s : strip_prefix p (p ++ s) = Some s.
Proof.
  induction p as [|a p IH]; simpl; [reflexivity|].
  now rewrite N.eqb_refl.
Qed.

Lemma strip_prefix_Some p s r : strip_prefix p s = Some r -> s = p ++ r.
Proof.
  revert s; induction p as [|a p IH]; intros s H; simpl in *.
  - now inversion H.
  - destruct s as [|c s]; [discriminate|].
    destruct (N.eqb_spec c a); [|discriminate].
    subst. f_equal. now apply IH.
Qed.

Lemma take_drop_while f s : take_while f s ++ drop_while f s = s.
Proof.
  induction s as [|c s IH]; simpl; [reflexivity|].
  destruct (f c); simpl; [now rewrite IH | reflexivity].
Qed.

Lemma take_while_all f s : Forall (fun c => f c = true) (take_while f s).
Proof.
  induction s as [|c s IH]; simpl; [constructor|].
  destruct (f c) eqn:E; constructor; assumption.
Qed.

Lemma drop_while_head f s c r : drop_while f s = c :: r -> f c = false.
Proof.
  induction s as [|x s IH]; simpl; [discriminate|].
  destruct (f x) eqn:E; [assumption|].
  intros H; inversion H; subst; assumption.
Qed.

(** A run of [f]-characters followed by a character [f] rejects. *)
Lemma take_while_app f ws c r :
  Forall (fun x => f x = true) ws -> f c = false ->
  take_while f (ws ++ c :: r) = ws.
Proof.
  intros Hws Hc; induction Hws as [|x ws Hx _ IH]; simpl.
  - now rewrite Hc.
  - now rewrite Hx, IH.
Qed.

Lemma drop_while_app f ws c r :
  Forall (fun x => f x = true) ws -> f c = false ->
  drop_while f (ws ++ c :: r) = c :: r.
Proof.
  intros Hws Hc; induction Hws as [|x ws Hx _ IH]; simpl.
  - now rewrite Hc.
  - now rewrite Hx, IH.
Qed.

Lemma firstn_take_while f s :
  firstn (length s - length (drop_while f s)) s = take_while f s.
Proof.
  rewrite <- (take_drop_while f s) at 1 3.
  rewrite length_app, Nat.add_sub.
  rewrite firstn_app, Nat.sub_diag, firstn_all. simpl.
  now rewrite app_nil_r.
Qed.

(** ** The matcher on the script's pattern *)

(** The parsed pattern is what reading the source string gives. *)
Lemma label_pattern_compiled : compile label_pattern_source = Some label_pattern.
Proof. reflexivity. Qed.

Section MatcherFacts.
Variable R : Type.

(** A leading run of literals is a prefix test. *)
Lemma match_seq_literals l (q : pattern) s g (k : str -> groups -> option R) :
  match_seq (map (fun c => One (LITERAL c)) l ++ q) s g k =
  match strip_prefix l s with
  | Some s' => match_seq q s' g k
  | None => None
  end.
Proof.
  revert s; induction l as [|a l IH]; intros s; simpl; [reflexivity|].
  destruct s as [|c s]; [reflexivity|].
  destruct (c =? a)%N; [apply IH | reflexivity].
Qed.

(** When what follows a greedy repeat cannot start with a character of the
    repeated item, backtracking never finds a second way: the repeat takes
    the whole run and the continuation runs once, after it. *)
Lemma max_repeat_run a min s (k : str -> option R) :
  (forall c s', item_match a c = true -> k (c :: s') = None) ->
  max_repeat a min s k =
  if min <=? length (take_while (item_match a) s)
  then k (drop_while (item_match a) s) else None.
Proof.
  intros Hk; revert min; induction s as [|c s IH]; intros min; simpl.
  - destruct min; reflexivity.
  - destruct (item_match a c) eqn:E.
    + rewrite IH. destruct min as [|m]; simpl.
      * destruct (k (drop_while (item_match a) s)) eqn:K; [reflexivity|].
        now apply Hk.
      * destruct (m <=? length (take_while (item_match a) s)); [|reflexivity].
        now destruct (k (drop_while (item_match a) s)).
    + destruct min; reflexivity.
Qed.

End MatcherFacts.

(** The characters the pattern puts after its repeats are not characters
    the repeats take. *)
Lemma space_not_eq c : isspace c = true -> (c =? ord "=")%N = false.
Proof.
  intros H; destruct (N.eqb_spec c (ord "=")); [subst; discriminate | reflexivity].
Qed.

Lemma space_not_dquote c : isspace c = true -> (c =? dquote)%N = false.
Proof.
  intros H; destruct (N.eqb_spec c dquote); [subst; discriminate | reflexivity].
Qed.

Lemma match_here_scan s : match_here label_pattern s = scan_label s.
Proof.
  unfold match_here, label_pattern, scan_label.
  rewrite match_seq_literals.
  destruct (strip_prefix key s) as [s1|]; [|reflexivity].
  cbn [match_seq match_node].
  rewrite max_repeat_run.
  2:{ intros c s' H. cbn [item_match] in *. now rewrite (space_not_eq c H). }
  change (item_match CATEGORY_SPACE) with isspace.
  cbn [Nat.leb item_match].
  destruct (drop_while isspace s1) as [|c s2]; [reflexivity|].
  destruct (c =? ord "=")%N; [|reflexivity].
  rewrite max_repeat_run.
  2:{ intros q s' H. cbn [item_match] in *. now rewrite (space_not_dquote q H). }
  change (item_match CATEGORY_SPACE) with isspace.
  cbn [Nat.leb item_match].
  destruct (drop_while isspace s2) as [|q s3]; [reflexivity|].
  destruct (q =? dquote)%N; [|reflexivity].
  rewrite max_repeat_run.
  2:{ intros q' s' H. cbn [item_match] in *. now destruct (q' =? dquote)%N. }
  change (item_match (NOT_LITERAL dquote)) with not_dquote.
  rewrite firstn_take_while.
  destruct (take_while not_dquote s3) as [|x X]; cbn [length Nat.leb]; [reflexivity|].
  destruct (drop_while not_dquote s3) as [|q' s4] eqn:D; [reflexivity|].
  apply drop_while_head in D. unfold not_dquote in D.
  now destruct (q' =? dquote)%N.
Qed.

Lemma not_dquote_all X : ~ In dquote X -> Forall (fun c => not_dquote c = true) X.
Proof.
  intros H; apply Forall_forall; intros c Hc. unfold not_dquote.
  destruct (N.eqb_spec c dquote); [subst; contradiction | reflexivity].
Qed.

Lemma all_not_dquote X : Forall (fun c => not_dquote c = true) X -> ~ In dquote X.
Proof.
  intros H Hin. rewrite Forall_forall in H. specialize (H _ Hin). discriminate.
Qed.

(** Completeness: wherever the label stands, with a value of one
    character or more, the scan succeeds and captures the value. *)
Lemma scan_label_complete ws1 ws2 X post :
  whitespace ws1 -> whitespace ws2 -> ~ In dquote X -> X <> [] ->
  scan_label (label_text ws1 ws2 X ++ post) = Some (post, [(1, X)]).
Proof.
  intros H1 H2 HX Hne. unfold scan_label, label_text.
  rewrite <- !app_assoc, strip_prefix_app.
  change (py "=") with [ord "="]. cbn [app].
  rewrite (drop_while_app isspace (ord "=") _ H1 eq_refl).
  rewrite N.eqb_refl.
  rewrite (drop_while_app isspace dquote _ H2 eq_refl).
  rewrite N.eqb_refl.
  apply not_dquote_all in HX.
  rewrite (take_while_app not_dquote dquote _ HX eq_refl).
  rewrite (drop_while_app not_dquote dquote _ HX eq_refl).
  destruct X; [contradiction | reflexivity].
Qed.

(** Soundness: the scan succeeds only on the label. *)
Lemma scan_label_sound s post g :
  scan_label s = Some (post, g) ->
  exists ws1 ws2 X,
    s = label_text ws1 ws2 X ++ post /\ whitespace ws1 /\ whitespace ws2 /\
    ~ In dquote X /\ X <> [] /\ g = [(1, X)].
Proof.
  unfold scan_label. intros H.
  destruct (strip_prefix key s) as [s1|] eqn:K; [|discriminate].
  apply strip_prefix_Some in K.
  destruct (drop_while isspace s1) as [|c s2] eqn:D1; [discriminate|].
  destruct (N.eqb_spec c (ord "=")) as [->|]; [|discriminate].
  destruct (drop_while isspace s2) as [|q s3] eqn:D2; [discriminate|].
  destruct (N.eqb_spec q dquote) as [->|]; [|discriminate].
  destruct (take_while not_dquote s3) as [|x X] eqn:T; [discriminate|].
  destruct (drop_while not_dquote s3) as [|q' s4] eqn:D3; [discriminate|].
  inversion H; subst post g; clear H.
  assert (q' = dquote) as ->.
  { apply drop_while_head in D3. unfold not_dquote in D3.
    destruct (N.eqb_spec q' dquote); [assumption | discriminate]. }
  exists (take_while isspace s1), (take_while isspace s2), (x :: X).
  repeat split.
  - unfold label_text. rewrite <- !app_assoc.
    change (py "=") with [ord "="]. cbn [app].
    rewrite K. f_equal.
    rewrite <- (take_drop_while isspace s1) at 1. rewrite D1. f_equal. f_equal.
    rewrite <- (take_drop_while isspace s2) at 1. rewrite D2. f_equal. f_equal.
    rewrite <- (take_drop_while not_dquote s3) at 1. rewrite T, D3. reflexivity.
  - apply take_while_all.
  - apply take_while_all.
  - apply all_not_dquote. rewrite <- T. apply take_while_all.
  - discriminate.
Qed.

(** The pattern matches at the head of a text in one way at most. *)
Lemma occurs_at_match text i X :
  occurs_at text i X <->
  i <= length text /\
  exists post, match_here label_pattern (skipn i text) = Some (post, [(1, X)]).
Proof.
  split.
  - intros [(pre & ws1 & ws2 & post & -> & <- & H1 & H2 & HX) Hne]. split.
    + rewrite length_app. lia.
    + exists post. rewrite skipn_app, skipn_all, Nat.sub_diag. cbn [app skipn].
      rewrite match_here_scan. now apply scan_label_complete.
  - intros [Hi [post H]]. rewrite match_here_scan in H.
    apply scan_label_sound in H as (ws1 & ws2 & X' & E & H1 & H2 & HX & Hne & G).
    inversion G; subst X'. split; [|assumption].
    exists (firstn i text), ws1, ws2, post. repeat split; try assumption.
    + rewrite <- E. symmetry. apply firstn_skipn.
    + apply firstn_length_le. assumption.
Qed.

(** ** [re.search] returns the leftmost match *)

Section Search.
Variable p : pattern.

Lemma search_from_leftmost s : forall i j s' g,
  j <= length s ->
  match_here p (skipn j s) = Some (s', g) ->
  (forall j', j' < j -> match_here p (skipn j' s) = None) ->
  search_from p i s =
  Some {| m_start := i + j;
          m_end := i + j + (length (skipn j s) - length s');
          m_groups := g |}.
Proof.
  induction s as [|c s IH]; intros i j s' g Hj H Hlt.
  - assert (j = 0) as -> by (simpl in Hj; lia).
    cbn [skipn] in H. cbn [search_from skipn]. rewrite H.
    do 2 f_equal; lia.
  - destruct j as [|j].
    + cbn [skipn] in H. cbn [search_from skipn]. rewrite H.
      do 2 f_equal; lia.
    + cbn [search_from]. pose proof (Hlt 0 (Nat.lt_0_succ j)) as H0.
      cbn [skipn] in H0. rewrite H0.
      rewrite (IH (S i) j s' g).
      * cbn [skipn]. do 2 f_equal; lia.
      * simpl in Hj; lia.
      * exact H.
      * intros j' Hj'. apply (Hlt (S j')). lia.
Qed.

Lemma search_from_None s : forall i,
  search_from p i s = None <->
  (forall j, j <= length s -> match_here p (skipn j s) = None).
Proof.
  induction s as [|c s IH]; intros i; cbn [search_from]; split.
  - intros H j Hj. assert (j = 0) as -> by (simpl in Hj; lia).
    cbn [skipn]. destruct (match_here p []) as [[? ?]|]; [discriminate | reflexivity].
  - intros H. pose proof (H 0 (Nat.le_0_l _)) as H0.
    cbn [skipn] in H0. now rewrite H0.
  - intros H j Hj.
    destruct (match_here p (c :: s)) as [[? ?]|] eqn:E; [discriminate|].
    destruct j as [|j]; [exact E|].
    cbn [skipn]. apply (proj1 (IH (S i)) H). simpl in Hj; lia.
  - intros H. pose proof (H 0 (Nat.le_0_l _)) as H0.
    cbn [skipn] in H0. rewrite H0.
    apply IH. intros j Hj. apply (H (S j)). simpl; lia.
Qed.

Lemma search_from_Some s : forall i m,
  search_from p i s = Some m ->
  exists j s',
    j <= length s /\ m_start m = i + j /\
    match_here p (skipn j s) = Some (s', m_groups m) /\
    (forall j', j' < j -> match_here p (skipn j' s) = None).
Proof.
  induction s as [|c s IH]; intros i m; cbn [search_from].
  - destruct (match_here p []) as [[s' g]|] eqn:E; [|discriminate].
    intros H; inversion H; subst m; clear H.
    exists 0, s'. cbn [m_start m_groups skipn length].
    repeat split; [lia | lia | exact E | intros; lia].
  - destruct (match_here p (c :: s)) as [[s' g]|] eqn:E.
    + intros H; inversion H; subst m; clear H.
      exists 0, s'. cbn [m_start m_groups skipn].
      repeat split; [lia | lia | exact E | intros; lia].
    + intros H. apply IH in H as (j & s' & Hj & St & M & Lt).
      exists (S j), s'. cbn [skipn length].
      repeat split; [lia | lia | exact M |].
      intros [|j'] Hj'; [exact E | apply Lt; lia].
Qed.

End Search.

(** On the script's pattern, in the words of the specification. *)
Lemma no_match_before text i j :
  leftmost text i -> j < i -> match_here label_pattern (skipn j text) = None.
Proof.
  intros L Hj.
  destruct (match_here label_pattern (skipn j text)) as [[s' g]|] eqn:E; [|reflexivity].
  exfalso.
  destruct (Nat.le_gt_cases j (length text)) as [Hle|Hgt].
  - pose proof E as E'. rewrite match_here_scan in E'.
    apply scan_label_sound in E' as (_ & _ & Y & _ & _ & _ & _ & _ & ->).
    apply (L j Y Hj). apply occurs_at_match. split; [assumption|]. now exists s'.
  - rewrite skipn_all2 in E by lia. discriminate.
Qed.

Lemma search_label_first text i X :
  occurs_at text i X -> leftmost text i ->
  exists m, pattern_search label_pattern text = Some m /\
            m_start m = i /\ group m 1 = Some X.
Proof.
  intros O L. apply occurs_at_match in O as [Hi [post M]].
  unfold pattern_search.
  rewrite (search_from_leftmost label_pattern text 0 Hi M
             (fun j' Hj' => no_match_before L Hj')).
  eexists; repeat split.
Qed.

Lemma search_label_None text :
  pattern_search label_pattern text = None <-> (forall i X, ~ occurs_at text i X).
Proof.
  unfold pattern_search. rewrite search_from_None. split.
  - intros H i X O. apply occurs_at_match in O as [Hi [post M]].
    rewrite (H i Hi) in M. discriminate.
  - intros H j Hj.
    apply (@no_match_before text (S j) j); [|lia].
    intros k Y _. apply H.
Qed.

Lemma search_label_Some text m :
  pattern_search label_pattern text = Some m ->
  exists X, group m 1 = Some X /\ occurs_at text (m_start m) X /\
            leftmost text (m_start m).
Proof.
  unfold pattern_search. intros H.
  apply search_from_Some in H as (j & s' & Hj & St & M & Lt).
  cbn [Nat.add] in St. rewrite St.
  pose proof M as M'. rewrite match_here_scan in M'.
  apply scan_label_sound in M' as (_ & _ & X & _ & _ & _ & _ & _ & G).
  exists X. unfold group. rewrite G. split; [reflexivity|]. split.
  - apply occurs_at_match. split; [assumption|]. exists s'. now rewrite <- G.
  - intros k Y Hk O. apply occurs_at_match in O as [_ [post O]].
    rewrite (Lt k Hk) in O. discriminate.
Qed.

(** ** The script, case by case *)

Lemma script_read_ok out e text :
  Path_read_text e (dockerfile_path (sys_argv e)) = inl text ->
  script out e =
  match pattern_search label_pattern text with
  | Some m => printed out (str_of_group (group m 1))
  | None => exited 3 [] (missing_label_message ++ [newline])
  end.
Proof.
  intros H. unfold script, main, bind, try_except_OSError, read_text.
  rewrite H. unfold re_search, re.search. rewrite label_pattern_compiled.
  cbn [option_map].
  destruct (pattern_search label_pattern text) as [m|]; [|reflexivity].
  unfold printed, print.
  now destruct (encodes out (str_of_group (group m 1))).
Qed.

Lemma script_read_raises out e exc :
  Path_read_text e (dockerfile_path (sys_argv e)) = inr exc ->
  script out e =
  if issubclass_OSError (exc_type exc)
  then exited 2 []
         (read_failure_message e (dockerfile_path (sys_argv e)) exc ++ [newline])
  else uncaught exc.
Proof.
  intros H. unfold script, main, bind, try_except_OSError, read_text.
  rewrite H. now destruct (issubclass_OSError (exc_type exc)).
Qed.

Lemma script_prints_first out e text i X :
  Path_read_text e (dockerfile_path (sys_argv e)) = inl text ->
  occurs_at text i X -> leftmost text i ->
  script out e = printed out X.
Proof.
  intros H O L. rewrite (script_read_ok out e H).
  destruct (search_label_first O L) as (m & -> & _ & ->). reflexivity.
Qed.

Lemma script_missing out e text :
  Path_read_text e (dockerfile_path (sys_argv e)) = inl text ->
  (forall i X, ~ occurs_at text i X) ->
  script out e = exited 3 [] (missing_label_message ++ [newline]).
Proof.
  intros H N. rewrite (script_read_ok out e H).
  now rewrite (proj2 (search_label_None text) N).
Qed.

Lemma no_match_below_leftmost text i : no_match_below text i = true -> leftmost text i.
Proof.
  unfold no_match_below. rewrite forallb_forall. intros H j Y Hj O.
  apply occurs_at_match in O as [_ [post M]].
  specialize (H j). rewrite M in H.
  assert (In j (seq 0 i)) as Hin by (apply in_seq; lia).
  specialize (H Hin). discriminate.
Qed.

Lemma search_None_no_occurrence text :
  pattern_search label_pattern text = None -> forall i X, ~ occurs_at text i X.
Proof. apply search_label_None. Qed.


Lemma no_match_except_only text i :
  no_match_except text i = true -> forall j Y, j <> i -> ~ occurs_at text j Y.
Proof.
  unfold no_match_except. rewrite forallb_forall. intros H j Y Hj O.
  apply occurs_at_match in O as [Hle [post M]].
  assert (In j (seq 0 (S (length text)))) as Hin by (apply in_seq; lia).
  specialize (H j Hin). rewrite M, orb_false_r in H.
  apply Nat.eqb_eq in H. contradiction.
Qed.

(** With the empty value the group has nothing to take: no match there. *)
Lemma scan_label_empty_value ws1 ws2 post :
  whitespace ws1 -> whitespace ws2 ->
  scan_label (label_text ws1 ws2 [] ++ post) = None.
Proof.
  intros H1 H2. unfold scan_label, label_text.
  rewrite <- !app_assoc, strip_prefix_app.
  change (py "=") with [ord "="]. cbn [app].
  rewrite (drop_while_app isspace (ord "=") _ H1 eq_refl).
  rewrite N.eqb_refl.
  rewrite (drop_while_app isspace dquote _ H2 eq_refl).
  rewrite N.eqb_refl.
  reflexivity.
Qed.

Lemma empty_value_no_occurrence text i Y :
  contains_label_at text i [] -> ~ occurs_at text i Y.
Proof.
  intros (pre & ws1 & ws2 & post & -> & <- & H1 & H2 & _) O.
  apply occurs_at_match in O as [_ [rest M]].
  rewrite skipn_app, skipn_all, Nat.sub_diag in M. cbn [app skipn] in M.
  rewrite match_here_scan, (scan_label_empty_value post H1 H2) in M.
  discriminate.
Qed.

(** ** The text after the first match does not matter *)

Lemma quotes_app a b : quotes (a ++ b) = quotes a + quotes b.
Proof. apply count_occ_app. Qed.

Lemma quotes_none s : ~ In dquote s -> quotes s = 0.
Proof. apply count_occ_not_In. Qed.

Lemma whitespace_no_quote ws : whitespace ws -> ~ In dquote ws.
Proof.
  intros H Hin. unfold whitespace in H. rewrite Forall_forall in H.
  specialize (H _ Hin). discriminate.
Qed.

(** The label has its two quotes and no other. *)
Lemma quotes_label ws1 ws2 X :
  whitespace ws1 -> whitespace ws2 -> ~ In dquote X ->
  quotes (label_text ws1 ws2 X) = 2.
Proof.
  intros H1 H2 HX. unfold label_text. rewrite !quotes_app.
  rewrite (quotes_none _ (whitespace_no_quote H1)),
          (quotes_none _ (whitespace_no_quote H2)), (quotes_none _ HX).
  reflexivity.
Qed.

Lemma quotes_last_quote r : r <> [] -> last r 0%N = dquote -> 1 <= quotes r.
Proof.
  intros Hne Hl. rewrite (app_removelast_last 0%N Hne), Hl, quotes_app.
  cbn. lia.
Qed.

Lemma last_app_nonempty (a b : str) d : b <> [] -> last (a ++ b) d = last b d.
Proof.
  intros Hb. rewrite (app_removelast_last d Hb) at 1.
  now rewrite app_assoc, last_last.
Qed.

Lemma last_label ws1 ws2 X : last (label_text ws1 ws2 X) 0%N = dquote.
Proof.
  unfold label_text. rewrite !app_assoc. apply last_last.
Qed.

Lemma leftmost_restrict a b i : leftmost (a ++ b) i -> leftmost a i.
Proof.
  intros L j Y Hj [(pre & ws1 & ws2 & post & E & Hl & H1 & H2 & HY) Hne].
  apply (L j Y Hj). split; [|assumption].
  exists pre, ws1, ws2, (post ++ b). rewrite E, <- !app_assoc. tauto.
Qed.

(** A match that begins before the label ends, at the latest, on the
    label's opening quote or on its closing quote: it has two quotes and
    its last character is one of them.  So whether one exists does not
    depend on what comes after the label. *)
Lemma leftmost_extend pre ws1 ws2 X post :
  whitespace ws1 -> whitespace ws2 -> ~ In dquote X ->
  leftmost (pre ++ label_text ws1 ws2 X) (length pre) ->
  leftmost (pre ++ label_text ws1 ws2 X ++ post) (length pre).
Proof.
  intros H1 H2 HX L j Y Hj [(pre' & v1 & v2 & post' & E & Hl & V1 & V2 & HY) Hne].
  apply app_eq_app in E as [p [[Ep E]|[Ep _]]].
  2:{ subst pre'. rewrite length_app in Hl. lia. }
  assert (forall r, p ++ label_text ws1 ws2 X = label_text v1 v2 Y ++ r -> False) as K.
  { intros r Er. apply (L j Y Hj). split; [|assumption].
    exists pre', v1, v2, r. rewrite Ep, <- app_assoc, Er. tauto. }
  rewrite app_assoc in E. symmetry in E.
  apply app_eq_app in E as [r [[E1 _]|[E1 _]]].
  - now apply (K r).
  - destruct r as [|c r].
    + apply (K []). now rewrite app_nil_r in *.
    + assert (1 <= quotes (c :: r)) as Q.
      { apply quotes_last_quote; [discriminate|].
        rewrite <- (last_label v1 v2 Y), E1.
        symmetry. apply last_app_nonempty. discriminate. }
      pose proof (@quotes_label v1 v2 Y V1 V2 HY) as Q'.
      rewrite E1, !quotes_app, (@quotes_label ws1 ws2 X H1 H2 HX) in Q'. lia.
Qed.

(** The script's outcome is fixed by the text up to the end of the first
    occurrence. *)
Lemma script_later_text_irrelevant out e text i X n rest :
  occurs_at (firstn n text) i X -> leftmost text i ->
  read_result e = inl (firstn n text ++ rest) ->
  script out e = printed out X.
Proof.
  intros O L H.
  rewrite <- (firstn_skipn n text) in L. apply leftmost_restrict in L.
  destruct O as [(pre & ws1 & ws2 & post & E & Hl & H1 & H2 & HX) Hne].
  rewrite E in *. subst i.
  rewrite app_assoc in L. apply leftmost_restrict in L.
  apply (@script_prints_first out e _ (length pre) X H).
  - split; [|assumption].
    exists pre, ws1, ws2, (post ++ rest). rewrite <- !app_assoc. tauto.
  - rewrite <- !app_assoc. now apply leftmost_extend.
Qed.

(** Standard output is written on the success path only. *)
Lemma stdout_written_only_on_success out e :
  stdout (output (script out e)) <> [] ->
  exists text i X,
    read_result e = inl text /\ occurs_at text i X /\ leftmost text i /\
    script out e = exited 0 (X ++ [newline]) [].
Proof.
  destruct (read_result e) as [text|exc] eqn:H.
  - rewrite (script_read_ok out e H).
    destruct (pattern_search label_pattern text) as [m|] eqn:S; [|now intros []].
    apply search_label_Some in S as (X & G & O & L). rewrite G.
    unfold printed, str_of_group. destruct (encodes out X); [|now intros []].
    intros _. exists text, (m_start m), X. tauto.
  - rewrite (script_read_raises out e H).
    destruct (issubclass_OSError (exc_type exc)); now intros [].
Qed.


Lemma includes_intro l a r : includes a (l ++ a ++ r).
Proof. now exists l, r. Qed.

(** * The claims *)

(** C1, as stated, is false.  It says that whenever the text contains the
    label with a quoted value [X] free of double quotes, the script prints
    [X] and a line feed and exits with 0.  With the empty value the
    pattern's group, which takes one character or more, does not match and
    the script exits with 3; with two labels the value of the second one,
    which the text contains as well, is not what is printed; and with a
    value standard output cannot encode, [print] raises, nothing is
    printed and the exit status is 1. *)
Lemma C1_counterexample :
  (let e := one_file [] (py "Dockerfile") (inl empty_value_dockerfile) in
   read_result e = inl empty_value_dockerfile /\
   contains_label_at empty_value_dockerfile 6 [] /\
   script utf8_stdout e = exited 3 [] (missing_label_message ++ [newline]) /\
   ~ (stdout (output (script utf8_stdout e)) = [] ++ [newline] /\
      exit_status (termination (script utf8_stdout e)) = 0%Z)) /\
  (let e := one_file [] (py "Dockerfile") (inl two_labels_dockerfile) in
   read_result e = inl two_labels_dockerfile /\
   contains_label_at two_labels_dockerfile 57 (py "second") /\
   script utf8_stdout e = exited 0 (py "first" ++ [newline]) [] /\
   ~ (stdout (output (script utf8_stdout e)) = py "second" ++ [newline] /\
      exit_status (termination (script utf8_stdout e)) = 0%Z)) /\
  (let e := one_file [] (py "Dockerfile") (inl accent_dockerfile) in
   let X := py "caf" ++ [233%N] in
   read_result e = inl accent_dockerfile /\
   contains_label_at accent_dockerfile 6 X /\
   script ascii_stdout e =
   uncaught {| exc_type := UnicodeEncodeError;
               exc_str := py "'ascii' codec can't encode character '\xe9' in position 3: ordinal not in range(128)" |} /\
   ~ (stdout (output (script ascii_stdout e)) = X ++ [newline] /\
      exit_status (termination (script ascii_stdout e)) = 0%Z)).
Proof.
  split; [|split]; cbv zeta.
  - split; [reflexivity|]. split; [|split; [vm_compute; reflexivity|]].
    + exists (py "LABEL "), (py " "), (py " "), [newline].
      label_here.
    + intros [H _]. vm_compute in H. discriminate.
  - split; [reflexivity|]. split; [|split; [vm_compute; reflexivity|]].
    + exists (firstn 57 two_labels_dockerfile), [], [], [newline].
      label_here.
    + intros [H _]. vm_compute in H. discriminate.
  - split; [reflexivity|]. split; [|split; [vm_compute; reflexivity|]].
    + exists (py "LABEL "), [], [], [newline].
      label_here.
    + intros [H _]. vm_compute in H. discriminate.
Qed.

(** C1, amended: when the text contains the label with a quoted value [X]
    that has no double quote and is not empty, with any whitespace or none
    around [=], and no occurrence of the pattern begins before it, then,
    if standard output can encode [X], the script writes exactly [X] and
    a line feed to standard output, nothing to standard error, and exits
    with status 0; if it cannot, [print] raises [UnicodeEncodeError],
    which nothing catches: nothing is written to either stream and the
    exit status is 1. *)
Theorem C1_label_value_printed out e text i X :
  read_result e = inl text ->
  contains_label_at text i X -> X <> [] -> leftmost text i ->
  script out e =
  if encodes out X then exited 0 (X ++ [newline]) []
  else uncaught {| exc_type := UnicodeEncodeError; exc_str := encode_reason out X |}.
Proof.
  intros H C Hne L. apply (script_prints_first out e H (conj C Hne) L).
Qed.

Lemma C1_label_value_printed_witness :
  script utf8_stdout (one_file [py "build/Dockerfile"] (py "build/Dockerfile")
                        (inl sample_dockerfile))
  = exited 0 (py "A sample image" ++ [newline]) [] /\
  exit_status (termination (script ascii_stdout
                              (one_file [] (py "Dockerfile") (inl accent_dockerfile))))
  = 1%Z.
Proof.
  split.
  - rewrite (@C1_label_value_printed utf8_stdout _ sample_dockerfile 18
               (py "A sample image")).
    + reflexivity.
    + reflexivity.
    + exists (firstn 18 sample_dockerfile), [], [], [newline].
      label_here.
    + discriminate.
    + apply no_match_below_leftmost. vm_compute. reflexivity.
  - rewrite (@C1_label_value_printed ascii_stdout _ accent_dockerfile 6
               (py "caf" ++ [233%N])).
    + reflexivity.
    + reflexivity.
    + exists (py "LABEL "), [], [], [newline].
      label_here.
    + discriminate.
    + apply no_match_below_leftmost. vm_compute. reflexivity.
Defined.

(** C2, as stated, is false for an encoding error.  [read_text] reports
    bytes that do not decode as [UnicodeDecodeError], which is not an
    [OSError]; the [except OSError] clause does not catch it, the script
    prints no message of its own and the exception leaves [main]
    uncaught, so the exit status is 1 and not 2. *)
Lemma C2_counterexample :
  let e := one_file [] (py "Dockerfile") (inr not_utf8) in
  read_result e = inr not_utf8 /\
  script utf8_stdout e = {| termination := Uncaught not_utf8;
                            output := {| stdout := []; stderr := [] |} |} /\
  exit_status (termination (script utf8_stdout e)) = 1%Z /\
  exit_status (termination (script utf8_stdout e)) <> 2%Z.
Proof.
  cbv zeta. repeat split; try reflexivity. vm_compute. discriminate.
Qed.

(** C2, amended: for every read failure of the resolved path that
    [read_text] raises as an [OSError] (file missing, permission denied,
    a directory in place of a file, ...), the script writes to standard
    error one line, [Failed to read Dockerfile at <path>: <failure>],
    which includes the resolved path and the failure's description,
    writes nothing to standard output, and exits with status 2. *)
Theorem C2_oserror_exit_2 out e exc :
  read_result e = inr exc ->
  issubclass_OSError (exc_type exc) = true ->
  let p := dockerfile_path (sys_argv e) in
  script out e = exited 2 [] (read_failure_message e p exc ++ [newline]) /\
  includes (Path_str e p) (stderr (output (script out e))) /\
  includes (exc_str exc) (stderr (output (script out e))).
Proof.
  intros H O p. rewrite (script_read_raises out e H), O.
  split; [reflexivity|]. cbn [output stderr exited]. unfold read_failure_message.
  split.
  - rewrite <- !app_assoc. apply includes_intro.
  - rewrite !app_assoc, <- app_assoc. apply includes_intro.
Qed.

Lemma C2_oserror_exit_2_witness :
  let e := one_file [] (py "Dockerfile") (inr no_such_file) in
  script utf8_stdout e =
  exited 2 []
    (py "Failed to read Dockerfile at Dockerfile: [Errno 2] No such file or directory: 'Dockerfile'"
     ++ [newline]).
Proof.
  cbv zeta.
  apply (@C2_oserror_exit_2 utf8_stdout
           (one_file [] (py "Dockerfile") (inr no_such_file)) no_such_file);
    reflexivity.
Defined.

(** C3: when the file is read and its text has no occurrence of the label
    pattern, the script writes exactly the fixed message
    [Missing org.opencontainers.image.description label in Dockerfile],
    as one line, to standard error, nothing to standard output, and exits
    with status 3. *)
Theorem C3_missing_label_exit_3 out e text :
  read_result e = inl text ->
  (forall i X, ~ occurs_at text i X) ->
  script out e =
  exited 3 []
    (py "Missing org.opencontainers.image.description label in Dockerfile"
     ++ [newline]).
Proof.
  intros H N. apply (script_missing out e H N).
Qed.

Lemma C3_missing_label_exit_3_witness :
  script utf8_stdout (one_file [py "./build/Dockerfile"] (py "./build/Dockerfile")
            (inl no_label_dockerfile))
  = exited 3 []
      (py "Missing org.opencontainers.image.description label in Dockerfile"
       ++ [newline]).
Proof.
  apply (@C3_missing_label_exit_3 utf8_stdout _ no_label_dockerfile).
  - reflexivity.
  - apply search_None_no_occurrence. vm_compute. reflexivity.
Defined.

(** C4, as stated, is false.  The group [[^Q]+] (Q the double quote)
    takes every character but the double quote, the line feed included,
    so a quoted value that spans two lines is matched: on a file whose
    only label is such a one the script prints both lines and exits with
    0, not 3. *)
Lemma C4_counterexample :
  let e := one_file [] (py "Dockerfile") (inl multiline_dockerfile) in
  let X := py "first line" ++ [newline] ++ py "second line" in
  read_result e = inl multiline_dockerfile /\
  contains_label_at multiline_dockerfile 6 X /\ In newline X /\
  (forall j Y, j <> 6 -> ~ occurs_at multiline_dockerfile j Y) /\
  match_here label_pattern (skipn 6 multiline_dockerfile)
    = Some ([newline], [(1, X)]) /\
  script utf8_stdout e = exited 0 (X ++ [newline]) [] /\
  exit_status (termination (script utf8_stdout e)) <> 3%Z.
Proof.
  cbv zeta. split; [reflexivity|]. split; [|split; [|split; [|split; [|split]]]].
  - exists (py "LABEL "), [], [], [newline]. label_here.
  - vm_compute. tauto.
  - apply no_match_except_only. vm_compute. reflexivity.
  - vm_compute. reflexivity.
  - vm_compute. reflexivity.
  - vm_compute. discriminate.
Qed.

(** C4, amended: a quoted value that spans several lines is matched like
    any other value without a double quote.  Where the text contains the
    label with a value [X] holding a line feed and no double quote, the
    pattern matches at that place and captures all of [X].  When no
    occurrence begins before it, the run is never one with status 3: if
    standard output can encode [X] the script prints [X], line feeds
    included, then a line feed, and exits with status 0; if it cannot,
    [print] raises [UnicodeEncodeError], uncaught, nothing is written
    and the exit status is 1. *)
Theorem C4_multiline_value_matches out e text i X :
  read_result e = inl text ->
  contains_label_at text i X -> In newline X ->
  (exists rest, match_here label_pattern (skipn i text) = Some (rest, [(1, X)])) /\
  (leftmost text i ->
   script out e =
   if encodes out X then exited 0 (X ++ [newline]) []
   else uncaught {| exc_type := UnicodeEncodeError; exc_str := encode_reason out X |}).
Proof.
  intros H C N.
  assert (occurs_at text i X) as O.
  { split; [assumption|]. intros ->. contradiction. }
  split.
  - apply occurs_at_match in O. tauto.
  - intros L. apply (script_prints_first out e H O L).
Qed.

Lemma C4_multiline_value_matches_witness :
  let X := py "first line" ++ [newline] ++ py "second line" in
  (exists rest,
     match_here label_pattern (skipn 6 multiline_dockerfile) = Some (rest, [(1, X)])) /\
  script utf8_stdout (one_file [] (py "Dockerfile") (inl multiline_dockerfile))
  = exited 0 (X ++ [newline]) [].
Proof.
  cbv zeta.
  destruct (@C4_multiline_value_matches utf8_stdout
              (one_file [] (py "Dockerfile") (inl multiline_dockerfile))
              multiline_dockerfile 6
              (py "first line" ++ [newline] ++ py "second line")) as [M P].
  - reflexivity.
  - exists (py "LABEL "), [], [], [newline]. label_here.
  - vm_compute. tauto.
  - split; [exact M|].
    rewrite P; [reflexivity|].
    apply no_match_below_leftmost. vm_compute. reflexivity.
Defined.

(** C5: when the text has two occurrences of the label pattern or more,
    the value printed to standard output is the captured group of the
    leftmost one: the run is the run of [print] on that group, which
    writes it and a line feed and gives status 0, or, on a standard
    output that cannot encode it, raises and writes nothing.  The later
    occurrences have no effect on the output: it stays the same when the
    text after the first occurrence, from any offset [n] past its end, is
    replaced by any other text. *)
Theorem C5_first_match_wins out e text i j X Y :
  read_result e = inl text ->
  occurs_at text i X -> occurs_at text j Y -> i < j -> leftmost text i ->
  script out e =
  (if encodes out X then exited 0 (X ++ [newline]) []
   else uncaught {| exc_type := UnicodeEncodeError; exc_str := encode_reason out X |}) /\
  (forall e' n rest,
     occurs_at (firstn n text) i X ->
     read_result e' = inl (firstn n text ++ rest) ->
     script out e' = script out e).
Proof.
  intros H O _ _ L.
  assert (script out e = printed out X) as S
    by apply (script_prints_first out e H O L).
  split; [exact S|].
  intros e' n rest On H'. rewrite S.
  apply (@script_later_text_irrelevant out e' text i X n rest On L H').
Qed.

Lemma C5_first_match_wins_witness :
  let e := one_file [] (py "Dockerfile") (inl two_labels_dockerfile) in
  script utf8_stdout e = exited 0 (py "first" ++ [newline]) [] /\
  script utf8_stdout (one_file [] (py "Dockerfile") (inl sample_two_then_other))
  = script utf8_stdout e.
Proof.
  cbv zeta.
  destruct (@C5_first_match_wins utf8_stdout
              (one_file [] (py "Dockerfile") (inl two_labels_dockerfile))
              two_labels_dockerfile 6 57 (py "first") (py "second")) as [S K];
    [ | | | | | split; [rewrite S; reflexivity|];
              apply (K _ 51 (py "LABEL other=1" ++ [newline]));
              [ split; [|discriminate];
                exists (py "LABEL "), [], [], [newline]; label_here
              | reflexivity ] ].
  - reflexivity.
  - split; [|discriminate].
    exists (py "LABEL "), [], [], (skipn 50 two_labels_dockerfile). label_here.
  - split; [|discriminate].
    exists (firstn 57 two_labels_dockerfile), [], [], [newline]. label_here.
  - lia.
  - apply no_match_below_leftmost. vm_compute. reflexivity.
Defined.

(** C6: the file the script reads is the one at the first positional
    argument when there is one, whatever follows it, and at the literal
    relative path [Dockerfile] when there is none.  With [p] that path,
    what reading [p] gives decides the run: a failure of the [OSError]
    family is reported with [p] in the message and status 2, any other
    exception leaves [main]; a text without the label gives status 3; a
    text with the label gives the run of [print] on the leftmost value.
    No other path of the file system is looked at. *)
Theorem C6_path_resolution out e :
  let p := match sys_argv e with
           | _ :: arg :: _ => mkPath arg
           | _ => mkPath (py "Dockerfile")
           end in
  (forall exc, Path_read_text e p = inr exc ->
     script out e =
     if issubclass_OSError (exc_type exc)
     then exited 2 []
            (py "Failed to read Dockerfile at " ++ Path_str e p ++ py ": "
             ++ exc_str exc ++ [newline])
     else uncaught exc) /\
  (forall text, Path_read_text e p = inl text ->
     (forall i X, ~ occurs_at text i X) ->
     script out e = exited 3 [] (missing_label_message ++ [newline])) /\
  (forall text i X, Path_read_text e p = inl text ->
     occurs_at text i X -> leftmost text i ->
     script out e =
     if encodes out X then exited 0 (X ++ [newline]) []
     else uncaught {| exc_type := UnicodeEncodeError; exc_str := encode_reason out X |}).
Proof.
  intros p.
  assert (p = dockerfile_path (sys_argv e)) as ->.
  { unfold p, dockerfile_path. destruct (sys_argv e) as [|prog [|arg rest]]; reflexivity. }
  split; [|split].
  - intros exc H. rewrite (script_read_raises out e H).
    unfold read_failure_message. now rewrite <- !app_assoc.
  - intros text H N. apply (script_missing out e H N).
  - intros text i X H O L. apply (script_prints_first out e H O L).
Qed.

Lemma C6_path_resolution_witness :
  script utf8_stdout (two_files [py "a/Dockerfile"; py "ignored"])
  = exited 0 (py "first" ++ [newline]) [] /\
  script utf8_stdout (two_files [])
  = exited 0 (py "A sample image" ++ [newline]) [] /\
  script utf8_stdout (two_files [py "missing"])
  = exited 2 []
      (py "Failed to read Dockerfile at missing: [Errno 2] No such file or directory: 'missing'"
       ++ [newline]).
Proof.
  split; [|split].
  - pose proof (C6_path_resolution utf8_stdout
                  (two_files [py "a/Dockerfile"; py "ignored"])) as P.
    cbv zeta in P. destruct P as (_ & _ & P).
    rewrite (P two_labels_dockerfile 6 (py "first")).
    + reflexivity.
    + reflexivity.
    + split; [|discriminate].
      exists (py "LABEL "), [], [], (skipn 50 two_labels_dockerfile). label_here.
    + apply no_match_below_leftmost. vm_compute. reflexivity.
  - pose proof (C6_path_resolution utf8_stdout (two_files [])) as P.
    cbv zeta in P. destruct P as (_ & _ & P).
    rewrite (P sample_dockerfile 18 (py "A sample image")).
    + reflexivity.
    + reflexivity.
    + split; [|discriminate].
      exists (firstn 18 sample_dockerfile), [], [], [newline]. label_here.
    + apply no_match_below_leftmost. vm_compute. reflexivity.
  - pose proof (C6_path_resolution utf8_stdout (two_files [py "missing"])) as P.
    cbv zeta in P. destruct P as (P & _).
    rewrite (P {| exc_type := FileNotFoundError;
                  exc_str := py "[Errno 2] No such file or directory: 'missing'" |}).
    + reflexivity.
    + reflexivity.
Defined.

(** C7: on every path that is not the full success path, that is on exit
    status 2 and 3 and also when an exception leaves [main], nothing has
    been written to standard output. *)
Theorem C7_failure_leaves_stdout_empty out e :
  exit_status (termination (script out e)) <> 0%Z ->
  stdout (output (script out e)) = [].
Proof.
  destruct (read_result e) as [text|exc] eqn:H.
  - rewrite (script_read_ok out e H).
    destruct (pattern_search label_pattern text) as [m|]; [|reflexivity].
    unfold printed. destruct (encodes out (str_of_group (group m 1))); cbn;
      [contradiction | reflexivity].
  - rewrite (script_read_raises out e H).
    destruct (issubclass_OSError (exc_type exc)); reflexivity.
Qed.

Lemma C7_failure_leaves_stdout_empty_witness :
  stdout (output (script utf8_stdout (one_file [] (py "Dockerfile") (inl no_label_dockerfile)))) = [] /\
  stdout (output (script utf8_stdout (one_file [] (py "Dockerfile") (inr no_such_file)))) = [].
Proof.
  split; apply C7_failure_leaves_stdout_empty; vm_compute; discriminate.
Defined.




(** C9: when the text contains the label with the empty quoted value and
    the pattern occurs nowhere else, the script treats the label as
    missing: the group needs one character at least, so there is no
    match, the fixed message goes to standard error and the exit status
    is 3; no empty line is printed. *)
Theorem C9_empty_value_exit_3 out e text i :
  read_result e = inl text ->
  contains_label_at text i [] ->
  (forall j Y, j <> i -> ~ occurs_at text j Y) ->
  script out e = exited 3 [] (missing_label_message ++ [newline]).
Proof.
  intros H C N. apply (script_missing out e H).
  intros j Y. destruct (Nat.eq_dec j i) as [->|Hj].
  - now apply empty_value_no_occurrence.
  - now apply N.
Qed.

Lemma C9_empty_value_exit_3_witness :
  script utf8_stdout (one_file [] (py "Dockerfile") (inl empty_value_dockerfile))
  = exited 3 [] (missing_label_message ++ [newline]).
Proof.
  apply (@C9_empty_value_exit_3 utf8_stdout _ empty_value_dockerfile 6).
  - reflexivity.
  - exists (py "LABEL "), (py " "), (py " "), [newline]. label_here.
  - intros j Y _. revert j Y. apply search_None_no_occurrence.
    vm_compute. reflexivity.
Defined.




(** * Further properties of the script *)

(** ** Helper facts *)

Lemma drop_while_app_head f ws rest :
  Forall (fun x => f x = true) ws -> head_is f rest = false ->
  drop_while f (ws ++ rest) = rest.
Proof.
  intros Hws Hr; induction Hws as [|x ws Hx _ IH]; cbn [app].
  - destruct rest as [|c r]; [reflexivity|]. cbn in *. now rewrite Hr.
  - cbn. now rewrite Hx.
Qed.

Lemma drop_while_all f s : Forall (fun x => f x = true) s -> drop_while f s = [].
Proof.
  induction 1 as [|x s Hx _ IH]; cbn; [reflexivity|]. now rewrite Hx.
Qed.

(** After the key and the whitespace something other than [=]. *)
Lemma scan_label_no_equals ws rest :
  whitespace ws -> head_is isspace rest = false -> head_is is_equals rest = false ->
  scan_label (key ++ ws ++ rest) = None.
Proof.
  intros Hw Hs He. unfold scan_label.
  rewrite strip_prefix_app, (drop_while_app_head isspace rest Hw Hs).
  destruct rest as [|c r]; [reflexivity|].
  cbn in He. unfold is_equals in He. now rewrite He.
Qed.

(** After [=] and the whitespace something other than a double quote. *)
Lemma scan_label_unquoted ws1 ws2 rest :
  whitespace ws1 -> whitespace ws2 ->
  head_is isspace rest = false -> head_is is_dquote rest = false ->
  scan_label (key ++ ws1 ++ py "=" ++ ws2 ++ rest) = None.
Proof.
  intros H1 H2 Hs Hq. unfold scan_label.
  rewrite strip_prefix_app.
  change (py "=") with [ord "="]. cbn [app].
  rewrite (drop_while_app isspace (ord "=") _ H1 eq_refl), N.eqb_refl.
  rewrite (drop_while_app_head isspace rest H2 Hs).
  destruct rest as [|c r]; [reflexivity|].
  cbn in Hq. unfold is_dquote in Hq. now rewrite Hq.
Qed.

(** After the opening quote no other double quote up to the end. *)
Lemma scan_label_unterminated ws1 ws2 X :
  whitespace ws1 -> whitespace ws2 -> ~ In dquote X ->
  scan_label (key ++ ws1 ++ py "=" ++ ws2 ++ dquote :: X) = None.
Proof.
  intros H1 H2 HX. unfold scan_label.
  rewrite strip_prefix_app.
  change (py "=") with [ord "="]. cbn [app].
  rewrite (drop_while_app isspace (ord "=") _ H1 eq_refl), N.eqb_refl.
  rewrite (drop_while_app isspace dquote _ H2 eq_refl), N.eqb_refl.
  rewrite (drop_while_all not_dquote (not_dquote_all X HX)).
  now destruct (take_while not_dquote X).
Qed.

(** No match at offset [i] and no occurrence elsewhere: the label is
    missing. *)
Lemma script_missing_but_here out e pre s :
  read_result e = inl (pre ++ s) ->
  scan_label s = None ->
  (forall j Y, j <> length pre -> ~ occurs_at (pre ++ s) j Y) ->
  script out e = exited 3 [] (missing_label_message ++ [newline]).
Proof.
  intros H N Other. apply (script_missing out e H).
  intros j Y O. destruct (Nat.eq_dec j (length pre)) as [->|Hj].
  - apply occurs_at_match in O as [_ [rest M]].
    rewrite skipn_app, skipn_all, Nat.sub_diag in M. cbn [app skipn] in M.
    rewrite match_here_scan, N in M. discriminate.
  - exact (Other j Y Hj O).
Qed.

Lemma occurs_includes_key text i X : occurs_at text i X -> includes key text.
Proof.
  intros [(pre & ws1 & ws2 & post & -> & _) _].
  exists pre, (ws1 ++ py "=" ++ ws2 ++ [dquote] ++ X ++ [dquote] ++ post).
  unfold label_text. now rewrite <- !app_assoc.
Qed.

Lemma includes_has_sub a text : includes a text -> has_sub a text = true.
Proof.
  intros (l & r & ->). unfold has_sub. apply existsb_exists.
  exists (length l). split.
  - apply in_seq. rewrite length_app. lia.
  - rewrite skipn_app, skipn_all, Nat.sub_diag. cbn [app skipn].
    now rewrite strip_prefix_app.
Qed.

(** The path depends on the argument list through its second element
    only. *)
Lemma dockerfile_path_nth argv :
  dockerfile_path argv =
  match nth_error argv 1 with
  | Some arg => mkPath arg
  | None => mkPath (py "Dockerfile")
  end.
Proof.
  unfold dockerfile_path.
  destruct argv as [|prog [|arg rest]]; reflexivity.
Qed.

(** ** The properties *)

(** X1: how the script ends is decided by the read, the search and the
    write alone.  It ends with status 0 exactly when the file is read,
    its text has an occurrence of the label pattern and standard output
    can encode the value of the leftmost one; with 3 exactly when the
    file is read and has no occurrence; with 2 exactly when reading
    raises one of the [OSError] family; and on an uncaught exception
    exactly when reading raises anything else, which is then the
    exception, or when the file is read, the pattern occurs and standard
    output cannot encode the leftmost value, the exception being the
    encoding error of that value.  [main] returns no other code. *)
Theorem termination_cases out e :
  (termination (script out e) = SystemExit 0 <->
   exists text i X, read_result e = inl text /\ occurs_at text i X /\
                    leftmost text i /\ encodes out X = true) /\
  (termination (script out e) = SystemExit 3 <->
   exists text, read_result e = inl text /\ forall i X, ~ occurs_at text i X) /\
  (termination (script out e) = SystemExit 2 <->
   exists exc, read_result e = inr exc /\ issubclass_OSError (exc_type exc) = true) /\
  (forall exc, termination (script out e) = Uncaught exc <->
   (read_result e = inr exc /\ issubclass_OSError (exc_type exc) = false) \/
   (exists text i X, read_result e = inl text /\ occurs_at text i X /\
                     leftmost text i /\ encodes out X = false /\
                     exc = encode_error out X)) /\
  (forall code, termination (script out e) = SystemExit code ->
   code = 0 \/ code = 2 \/ code = 3)%Z.
Proof.
  destruct (read_result e) as [text|exc] eqn:H.
  - rewrite (script_read_ok out e H).
    destruct (pattern_search label_pattern text) as [m|] eqn:S.
    + apply search_label_Some in S as (X & G & O & L). rewrite G.
      assert (forall j Y, occurs_at text j Y -> leftmost text j -> Y = X) as U.
      { intros j Y Oj Lj.
        destruct (search_label_first Oj Lj) as (m1 & S1 & _ & G1).
        destruct (search_label_first O L) as (m2 & S2 & _ & G2).
        rewrite S1 in S2. inversion S2; subst m2. rewrite G1 in G2.
        now inversion G2. }
      unfold printed, str_of_group.
      destruct (encodes out X) eqn:En; cbn [termination exited uncaught].
      * split; [|split; [|split; [|split]]].
        -- split; [intros _; now exists text, (m_start m), X | reflexivity].
        -- split; [discriminate|].
           intros (t & E & N). inversion E; subst t. now destruct (N _ _ O).
        -- split; [discriminate | now intros (x & E & _)].
        -- intros exc. split; [discriminate|].
           intros [[E _]|(t & j & Y & E & Oj & Lj & En' & _)]; [discriminate|].
           inversion E; subst t. rewrite (U j Y Oj Lj) in En'. congruence.
        -- intros code E. inversion E. auto.
      * split; [|split; [|split; [|split]]].
        -- split; [discriminate|].
           intros (t & j & Y & E & Oj & Lj & En'). inversion E; subst t.
           rewrite (U j Y Oj Lj) in En'. congruence.
        -- split; [discriminate|].
           intros (t & E & N). inversion E; subst t. now destruct (N _ _ O).
        -- split; [discriminate | now intros (x & E & _)].
        -- intros exc. split.
           ++ intros E. inversion E. right. now exists text, (m_start m), X.
           ++ intros [[E _]|(t & j & Y & E & Oj & Lj & _ & ->)]; [discriminate|].
              inversion E; subst t. now rewrite (U j Y Oj Lj).
        -- discriminate.
    + pose proof (proj1 (search_label_None text) S) as N.
      cbn [termination exited].
      split; [|split; [|split; [|split]]].
      * split; [discriminate|].
        intros (t & j & Y & E & Oj & _). inversion E; subst t. now destruct (N _ _ Oj).
      * split; [intros _; now exists text | reflexivity].
      * split; [discriminate | now intros (x & E & _)].
      * intros exc. split; [discriminate|].
        intros [[E _]|(t & j & Y & E & Oj & _)]; [discriminate|].
        inversion E; subst t. now destruct (N _ _ Oj).
      * intros code E. inversion E. auto.
  - rewrite (script_read_raises out e H).
    destruct (issubclass_OSError (exc_type exc)) eqn:C;
      cbn [termination exited uncaught].
    + split; [|split; [|split; [|split]]].
      * split; [discriminate | now intros (t & j & Y & E & _)].
      * split; [discriminate | now intros (t & E & _)].
      * split; [intros _; now exists exc | reflexivity].
      * intros x. split; [discriminate|].
        intros [[E F]|(t & j & Y & E & _)]; [|discriminate].
        inversion E; subst x. congruence.
      * intros code E. inversion E. auto.
    + split; [|split; [|split; [|split]]].
      * split; [discriminate | now intros (t & j & Y & E & _)].
      * split; [discriminate | now intros (t & E & _)].
      * split; [discriminate|].
        intros (x & E & F). inversion E; subst x. congruence.
      * intros x. split.
        -- intros E. inversion E; subst x. now left.
        -- intros [[E _]|(t & j & Y & E & _)]; [|discriminate].
           now inversion E.
      * discriminate.
Qed.

(** X2: what is printed is never made up.  When the script exits with
    status 0, standard output holds exactly one value and a line feed,
    standard error is empty, and the value stands in the file between two
    double quotes after the key and [=], at the leftmost place where the
    pattern occurs; it has one character at least and no double quote. *)
Theorem printed_value_is_first_occurrence out e :
  termination (script out e) = SystemExit 0 ->
  exists text i X,
    read_result e = inl text /\ occurs_at text i X /\ leftmost text i /\
    X <> [] /\ ~ In dquote X /\
    script out e = exited 0 (X ++ [newline]) [].
Proof.
  destruct (read_result e) as [text|exc] eqn:H.
  - rewrite (script_read_ok out e H).
    destruct (pattern_search label_pattern text) as [m|] eqn:S; [|discriminate].
    apply search_label_Some in S as (X & G & O & L). rewrite G.
    unfold printed, str_of_group. destruct (encodes out X); [|discriminate].
    intros _. exists text, (m_start m), X.
    destruct O as [C Hne].
    assert (~ In dquote X) by (destruct C as (? & ? & ? & ? & ? & ? & ? & ? & HX); exact HX).
    repeat split; assumption.
  - rewrite (script_read_raises out e H).
    destruct (issubclass_OSError (exc_type exc)); discriminate.
Qed.

Lemma printed_value_is_first_occurrence_witness :
  exists text i X,
    read_result (one_file [] (py "Dockerfile") (inl sample_dockerfile)) = inl text /\
    occurs_at text i X /\ leftmost text i /\ X <> [] /\ ~ In dquote X /\
    script utf8_stdout (one_file [] (py "Dockerfile") (inl sample_dockerfile))
    = exited 0 (X ++ [newline]) [].
Proof.
  apply (printed_value_is_first_occurrence utf8_stdout
           (one_file [] (py "Dockerfile") (inl sample_dockerfile))).
  vm_compute. reflexivity.
Defined.

(** X3: an exception of [read_text] that is not of the [OSError] family
    goes through [main] untouched: the script writes nothing to either
    stream and ends on that exception, uncaught, so with exit status 1. *)
Theorem other_exception_propagates out e exc :
  read_result e = inr exc ->
  issubclass_OSError (exc_type exc) = false ->
  script out e = {| termination := Uncaught exc;
                    output := {| stdout := []; stderr := [] |} |} /\
  exit_status (termination (script out e)) = 1%Z.
Proof.
  intros H C. rewrite (script_read_raises out e H), C. split; reflexivity.
Qed.

Lemma other_exception_propagates_witness :
  script utf8_stdout (one_file [py "image.bin"] (py "image.bin") (inr not_utf8))
  = {| termination := Uncaught not_utf8;
       output := {| stdout := []; stderr := [] |} |} /\
  exit_status (termination
                 (script utf8_stdout
                         (one_file [py "image.bin"] (py "image.bin") (inr not_utf8))))
  = 1%Z.
Proof.
  apply (@other_exception_propagates utf8_stdout
           (one_file [py "image.bin"] (py "image.bin") (inr not_utf8)) not_utf8);
    reflexivity.
Defined.

(** X4: the script never writes to both streams, and whenever [main]
    returns a code it has written to one of them: the result goes to
    standard output or the error goes to standard error, never a mix. *)
Theorem one_stream_only out e :
  (stdout (output (script out e)) = [] \/ stderr (output (script out e)) = []) /\
  (forall code, termination (script out e) = SystemExit code ->
   stdout (output (script out e)) <> [] \/ stderr (output (script out e)) <> []).
Proof.
  destruct (read_result e) as [text|exc] eqn:H.
  - rewrite (script_read_ok out e H).
    destruct (pattern_search label_pattern text) as [m|].
    + unfold printed. destruct (encodes out (str_of_group (group m 1)));
        cbn [output stdout stderr exited uncaught termination]; split; auto.
      * intros code _. left. intros E. apply app_eq_nil in E as [_ E]. discriminate.
      * discriminate.
    + cbn [output stdout stderr exited termination]; split; auto.
      intros code _. right. discriminate.
  - rewrite (script_read_raises out e H).
    destruct (issubclass_OSError (exc_type exc));
      cbn [output stdout stderr exited uncaught termination]; split; auto.
    + intros code _. right. intros E. apply app_eq_nil in E as [_ E]. discriminate.
    + discriminate.
Qed.

(** X5: the key is matched letter for letter, its dots as dots.  A file
    that is read and whose text does not have the exact key
    [org.opencontainers.image.description] anywhere in it (the key in
    another case, or with other separators) is reported as having no
    label: the fixed message and exit status 3. *)
Theorem key_absent_exit_3 out e text :
  read_result e = inl text ->
  ~ includes key text ->
  script out e = exited 3 [] (missing_label_message ++ [newline]).
Proof.
  intros H N. apply (script_missing out e H).
  intros i X O. apply N. apply (occurs_includes_key O).
Qed.

Lemma key_absent_exit_3_witness :
  script utf8_stdout (one_file [] (py "Dockerfile") (inl other_case_dockerfile))
  = exited 3 [] (missing_label_message ++ [newline]).
Proof.
  apply (@key_absent_exit_3 utf8_stdout _ other_case_dockerfile).
  - reflexivity.
  - intros I. apply includes_has_sub in I. vm_compute in I. discriminate.
Defined.

(** X6: the [=] is required.  Where the key is followed, after any
    whitespace, by something other than [=] (the form of the instruction
    that separates key and value by a space, or the end of the file), the
    pattern does not match there; with no occurrence elsewhere the script
    reports the label as missing and exits with status 3. *)
Theorem label_without_equals_missing out e pre ws rest :
  read_result e = inl (pre ++ key ++ ws ++ rest) ->
  whitespace ws ->
  head_is isspace rest = false -> head_is is_equals rest = false ->
  (forall j Y, j <> length pre -> ~ occurs_at (pre ++ key ++ ws ++ rest) j Y) ->
  script out e = exited 3 [] (missing_label_message ++ [newline]).
Proof.
  intros H Hw Hs He Other.
  apply (@script_missing_but_here out e pre (key ++ ws ++ rest) H); [|exact Other].
  now apply scan_label_no_equals.
Qed.

Lemma label_without_equals_missing_witness :
  script utf8_stdout (one_file [] (py "Dockerfile") (inl no_equals_dockerfile))
  = exited 3 [] (missing_label_message ++ [newline]).
Proof.
  apply (@label_without_equals_missing utf8_stdout _ (py "LABEL ") (py " ")
           (quoted (py "v") ++ [newline])).
  - reflexivity.
  - spaces.
  - reflexivity.
  - reflexivity.
  - intros j Y _. revert j Y. apply search_None_no_occurrence.
    vm_compute. reflexivity.
Defined.

(** X7: the value must open with a double quote.  Where [=] is followed,
    after any whitespace, by something other than a double quote (a bare
    word, a single quote, the end of the file), the pattern does not
    match there; with no occurrence elsewhere the script reports the
    label as missing and exits with status 3. *)
Theorem unquoted_value_missing out e pre ws1 ws2 rest :
  read_result e = inl (pre ++ key ++ ws1 ++ py "=" ++ ws2 ++ rest) ->
  whitespace ws1 -> whitespace ws2 ->
  head_is isspace rest = false -> head_is is_dquote rest = false ->
  (forall j Y, j <> length pre ->
               ~ occurs_at (pre ++ key ++ ws1 ++ py "=" ++ ws2 ++ rest) j Y) ->
  script out e = exited 3 [] (missing_label_message ++ [newline]).
Proof.
  intros H H1 H2 Hs Hq Other.
  apply (@script_missing_but_here out e pre (key ++ ws1 ++ py "=" ++ ws2 ++ rest) H);
    [|exact Other].
  now apply scan_label_unquoted.
Qed.

Lemma unquoted_value_missing_witness :
  script utf8_stdout (one_file [] (py "Dockerfile") (inl single_quoted_dockerfile))
  = exited 3 [] (missing_label_message ++ [newline]).
Proof.
  apply (@unquoted_value_missing utf8_stdout _ (py "LABEL ") [] [] (py "'v'" ++ [newline])).
  - reflexivity.
  - spaces.
  - spaces.
  - reflexivity.
  - reflexivity.
  - intros j Y _. revert j Y. apply search_None_no_occurrence.
    vm_compute. reflexivity.
Defined.

(** X8: the value must be closed.  Where the opening double quote is
    followed by no other double quote up to the end of the file, the
    pattern does not match there, however long the text that follows;
    with no occurrence elsewhere the script reports the label as missing
    and exits with status 3. *)
Theorem unterminated_value_missing out e pre ws1 ws2 X :
  read_result e = inl (pre ++ key ++ ws1 ++ py "=" ++ ws2 ++ dquote :: X) ->
  whitespace ws1 -> whitespace ws2 -> ~ In dquote X ->
  (forall j Y, j <> length pre ->
               ~ occurs_at (pre ++ key ++ ws1 ++ py "=" ++ ws2 ++ dquote :: X) j Y) ->
  script out e = exited 3 [] (missing_label_message ++ [newline]).
Proof.
  intros H H1 H2 HX Other.
  apply (@script_missing_but_here out e pre
           (key ++ ws1 ++ py "=" ++ ws2 ++ dquote :: X) H); [|exact Other].
  now apply scan_label_unterminated.
Qed.

Lemma unterminated_value_missing_witness :
  script utf8_stdout (one_file [] (py "Dockerfile") (inl unterminated_dockerfile))
  = exited 3 [] (missing_label_message ++ [newline]).
Proof.
  apply (@unterminated_value_missing utf8_stdout _ (py "LABEL ") [] []
           (py "never closed" ++ [newline] ++ py "RUN true" ++ [newline])).
  - reflexivity.
  - spaces.
  - spaces.
  - no_quote.
  - intros j Y _. revert j Y. apply search_None_no_occurrence.
    vm_compute. reflexivity.
Defined.

(** X9: of the argument list only the first positional argument counts.
    Two runs on the same file system whose argument lists agree on that
    argument, or both lack it, end the same way: the program name and
    every further argument are ignored. *)
Theorem only_first_argument_counts out e1 e2 :
  nth_error (sys_argv e1) 1 = nth_error (sys_argv e2) 1 ->
  (forall p, Path_read_text e1 p = Path_read_text e2 p) ->
  (forall p, Path_str e1 p = Path_str e2 p) ->
  script out e1 = script out e2.
Proof.
  intros A R P.
  assert (dockerfile_path (sys_argv e1) = dockerfile_path (sys_argv e2)) as D
    by (rewrite !dockerfile_path_nth, A; reflexivity).
  assert (read_result e1 = read_result e2) as E
    by (unfold read_result; rewrite D; apply R).
  destruct (read_result e2) as [text|exc] eqn:H2.
  - now rewrite (script_read_ok out e1 E), (script_read_ok out e2 H2).
  - rewrite (script_read_raises out e1 E), (script_read_raises out e2 H2).
    unfold read_failure_message. now rewrite D, P.
Qed.

Lemma only_first_argument_counts_witness :
  script utf8_stdout (one_file [py "Dockerfile"; py "--verbose"; py "other"] (py "Dockerfile")
            (inl sample_dockerfile))
  = script utf8_stdout {| sys_argv := [py "python3"; py "Dockerfile"];
              Path_str := raw;
              Path_read_text :=
                Path_read_text (one_file [] (py "Dockerfile") (inl sample_dockerfile)) |}.
Proof.
  apply only_first_argument_counts; reflexivity.
Defined.

(** X10: a backslash does not escape a double quote.  A value written
    with a backslash and a double quote inside it ends at that double
    quote: the value handed to [print] is the text up to and including
    the backslash, whatever follows.  On a standard output that can
    encode it, it is printed with a line feed and the exit status is 0;
    on one that cannot, [print] raises [UnicodeEncodeError], uncaught,
    and nothing is printed. *)
Theorem escaped_quote_ends_value out e pre ws1 ws2 V rest :
  read_result e = inl (pre ++ label_text ws1 ws2 (V ++ [backslash]) ++ rest) ->
  whitespace ws1 -> whitespace ws2 -> ~ In dquote V ->
  leftmost (pre ++ label_text ws1 ws2 (V ++ [backslash])) (length pre) ->
  script out e =
  if encodes out (V ++ [backslash])
  then exited 0 ((V ++ [backslash]) ++ [newline]) []
  else uncaught {| exc_type := UnicodeEncodeError;
                   exc_str := encode_reason out (V ++ [backslash]) |}.
Proof.
  intros H H1 H2 HV L.
  assert (~ In dquote (V ++ [backslash])) as HX.
  { intros I. apply in_app_or in I as [I|[I|[]]]; [contradiction | discriminate]. }
  apply (@script_prints_first out e _ (length pre) (V ++ [backslash]) H).
  - split.
    + exists pre, ws1, ws2, rest. tauto.
    + intros E. apply app_eq_nil in E as [_ E]. discriminate.
  - now apply leftmost_extend.
Qed.

Lemma escaped_quote_ends_value_witness :
  script utf8_stdout (one_file [] (py "Dockerfile") (inl escaped_quote_dockerfile))
  = exited 0 ((py "say " ++ [backslash]) ++ [newline]) [].
Proof.
  rewrite (@escaped_quote_ends_value utf8_stdout _ (py "LABEL ") [] [] (py "say ")
             (py "hi" ++ [backslash; dquote; dquote; newline])).
  - reflexivity.
  - reflexivity.
  - spaces.
  - spaces.
  - no_quote.
  - apply no_match_below_leftmost. vm_compute. reflexivity.
Defined.
